(** * go-aidoc, package [lib/crypto]: key codec, address derivation and
      signature-value validation ([crypto.go]).

    The development embeds the functions of [crypto.go] shallowly.
    - [*big.Int] values are [Z]; a nil pointer is [None] of an [option].
    - [[]byte] is [list byte]; the nil slice and the empty slice are both [[]].
    - A Go function returning [(value, error)] returns a [result]; a function
      that can stop with a run-time panic (slice bounds) returns a [run].
    - The packages that [crypto.go] imports but that are not part of the file
      (the sha3 sponge, the curve, the RLP encoder, the hex codec, the file
      system) are Section variables; what
      is assumed of them is stated as a named Hypothesis where it is used. *)

From Stdlib Require Import ZArith List Bool Lia.
From Stdlib Require Import Strings.Byte.
From Stdlib Require Strings.String.
Import ListNotations.

Local Open Scope Z_scope.

(** ** Go values *)

(** The outcome of a Go function that returns [(T, error)]. *)
Inductive result (T E : Type) : Type :=
| Ok (v : T)
| Err (e : E).
Arguments Ok {T E} v.
Arguments Err {T E} e.

Module BigInt.

(** [x.Cmp(y)]: -1, 0 or +1. *)
Definition Cmp (x y : Z) : Z :=
  match x ?= y with
  | Lt => -1
  | Eq => 0
  | Gt => 1
  end.

(** [x.Sign()]: -1, 0 or +1. *)
Definition Sign (x : Z) : Z := Z.sgn x.

Definition byte_val (b : byte) : Z := Z.of_N (Byte.to_N b).

Definition byte_of_Z (z : Z) : byte :=
  match Byte.of_N (Z.to_N (z mod 256)) with
  | Some b => b
  | None => x00
  end.

(** [new(big.Int).SetBytes(d)]: [d] read as a big-endian unsigned integer. *)
Definition SetBytes (d : list byte) : Z :=
  fold_left (fun acc b => acc * 256 + byte_val b) d 0.

(** [x.BitLen()]: the length of [|x|] in bits, 0 for 0. *)
Definition BitLen (x : Z) : Z :=
  if Z.abs x =? 0 then 0 else Z.log2 (Z.abs x) + 1.

(** The [n] low-order bytes of [|x|], most significant first
    (what [ReadBits] / [FillBytes] leave in a buffer of [n] bytes). *)
Fixpoint be_bytes (n : nat) (x : Z) : list byte :=
  match n with
  | O => []
  | S m => be_bytes m (x / 256) ++ [byte_of_Z x]
  end.

(** [x.Bytes()]: the big-endian bytes of [|x|] without leading zeros. *)
Definition Bytes (x : Z) : list byte :=
  be_bytes (Z.to_nat ((BitLen x + 7) / 8)) (Z.abs x).

End BigInt.

(** ** Package constants *)

(** [secp256k1N], parsed from its hexadecimal string. *)
Definition secp256k1N : Z :=
  0xfffffffffffffffffffffffffffffffebaaedce6af48a03bbfd25e8cd0364141.

(** [secp256k1halfN = new(big.Int).Div(secp256k1N, big.NewInt(2))]. *)
Definition secp256k1halfN : Z := secp256k1N / 2.

(** [chain_common.Big1 = big.NewInt(1)]. *)
Definition Big1 : Z := 1.

(** ** Signature validator *)

(** [ValidateSignatureValues(v, r, s, homestead)]. *)
Definition ValidateSignatureValues (v : byte) (r s : Z) (homestead : bool) : bool :=
  if (BigInt.Cmp r Big1 <? 0) || (BigInt.Cmp s Big1 <? 0) then false
  else if homestead && (BigInt.Cmp s secp256k1halfN >? 0) then false
  else (BigInt.Cmp r secp256k1N <? 0) && (BigInt.Cmp s secp256k1N <? 0)
       && (Byte.eqb v x00 || Byte.eqb v x01).

(** ** Go run-time behaviour *)

(** A call either returns or stops the goroutine with a run-time panic. *)
Inductive run (A : Type) : Type :=
| Returns (a : A)
| Panics.
Arguments Returns {A} a.
Arguments Panics {A}.

(** The slice expression [s[lo:]]: a panic ("slice bounds out of range")
    unless [lo <= len(s)]. *)
Definition slice_from (s : list byte) (lo : nat) : run (list byte) :=
  if (lo <=? length s)%nat then Returns (skipn lo s) else Panics.

(** ** Data model *)

(** The curve parameters that [crypto.go] reads ([Params().BitSize]). *)
Record CurveParams : Type := { BitSize : Z }.

(** Modelled from the spec: [S256()] is defined in another file of the
    package, not in [crypto.go]; the spec fixes the coordinate width of the
    one configured curve at 32 bytes, so its [BitSize] is 256. *)
Definition S256 : CurveParams := {| BitSize := 256 |}.

(** [ecdsa.PublicKey]: a curve and two [*big.Int] coordinates, each of which
    may be nil. *)
Record PublicKey : Type := {
  Curve : CurveParams;
  X : option Z;
  Y : option Z
}.

(** [ecdsa.PrivateKey]: the embedded public key and the scalar [D]. *)
Record PrivateKey : Type := {
  Public : PublicKey;
  D : Z
}.

(** The error values of the package, one per place that creates one:
    - [InvalidKeyLength]: the [fmt.Errorf] of [toECDSA] under [strict];
    - [KeyOutOfRange]: the [fmt.Errorf] after [priv.D.Cmp(secp256k1N) >= 0];
    - [KeyNonPositive]: the [fmt.Errorf] after [priv.D.Sign() <= 0];
    - [InvalidPoint]: the [errors.New] after [priv.PublicKey.X == nil];
    - [InvalidHexString]: the [errors.New] of [HexToECDSA];
    - [InvalidPublicKey]: the package variable [errInvalidPubkey]. *)
Inductive CryptoError : Type :=
| InvalidKeyLength
| KeyOutOfRange
| KeyNonPositive
| InvalidPoint
| InvalidHexString
| InvalidPublicKey.

(** Modelled from the spec: [chain_common.Address] and
    [chain_common.BytesToAddress] are not part of [crypto.go]; the spec makes
    an address a fixed-width 20-byte identifier holding the low bytes of what
    it is built from.  The rightmost 20 bytes of [b] are kept, and a shorter
    [b] is padded with zero bytes on the left. *)
Definition AddressLength : nat := 20.

Definition BytesToAddress (b : list byte) : list byte :=
  let b' := skipn (length b - AddressLength) b in
  repeat x00 (AddressLength - length b') ++ b'.

(** Modelled from the spec: [math.PaddedBigBytes] is not part of [crypto.go];
    the spec has it serialise the integer as a big-endian sequence padded to
    [n] bytes.  An integer that needs [n] bytes or more is returned as its own
    bytes, unpadded. *)
Definition PaddedBigBytes (x : Z) (n : Z) : list byte :=
  if BigInt.BitLen x / 8 >=? n then BigInt.Bytes x
  else BigInt.be_bytes (Z.to_nat n) (Z.abs x).

(** ** Stand-ins for the collaborators

    Small executable implementations of the imported packages' interfaces.
    They are used only to run the functions of [crypto.go] on concrete inputs
    and to show that what is assumed of the collaborators can be met. *)

Module Fixture.

(** A sponge that keeps what was written; its digest is the low 32 bytes of
    the written bytes read as an integer. *)
Definition State : Type := list byte.
Definition New : State := [].
Definition Write (s : State) (b : list byte) : State := s ++ b.
Definition Sum (s : State) (b : list byte) : list byte :=
  b ++ BigInt.be_bytes 32 (BigInt.SetBytes s).

(** The integers modulo [secp256k1N] under addition, with base point 1:
    [k] times the base point is [k mod N], and the identity is signalled by
    absent coordinates. *)
Definition ScalarBaseMult (k : list byte) : option Z * option Z :=
  let n := BigInt.SetBytes k mod secp256k1N in
  if n =? 0 then (None, None) else (Some n, Some n).

(** The uncompressed point encoding: the tag 4, then both coordinates at
    the curve's byte width. *)
Definition Marshal (c : CurveParams) (x y : Z) : list byte :=
  let byteLen := Z.to_nat ((BitSize c + 7) / 8) in
  x04 :: BigInt.be_bytes byteLen x ++ BigInt.be_bytes byteLen y.

Definition Unmarshal (c : CurveParams) (b : list byte) : option Z * option Z :=
  let byteLen := Z.to_nat ((BitSize c + 7) / 8) in
  match b with
  | x04 :: rest =>
      if (length rest =? 2 * byteLen)%nat then
        (Some (BigInt.SetBytes (firstn byteLen rest)),
         Some (BigInt.SetBytes (skipn byteLen rest)))
      else (None, None)
  | _ => (None, None)
  end.

(** An encoder that never fails: the address, then the nonce on 8 bytes. *)
Definition EncodeToBytes (b : list byte) (nonce : Z) : result (list byte) unit :=
  Ok (b ++ BigInt.be_bytes 8 nonce).

(** An encoder that always fails. *)
Definition EncodeFails (b : list byte) (nonce : Z) : result (list byte) unit :=
  Err tt.

(** The scalars used as test inputs, on 32 bytes. *)
Definition bytes32 (x : Z) : list byte := BigInt.be_bytes 32 x.

End Fixture.

(** ** Key files *)

(** The errors of [LoadECDSA], one per [return nil, err]: the error of
    [os.Open], the two errors of [io.ReadFull] ([io.EOF] when nothing could
    be read, [io.ErrUnexpectedEOF] when the file ends early), the error of
    [hex.DecodeString], and the error of [ToECDSA]. *)
Inductive LoadError (IOError : Type) : Type :=
| OpenError (e : IOError)
| EOF
| ErrUnexpectedEOF
| HexError
| KeyError (e : CryptoError).
Arguments OpenError {IOError} e.
Arguments EOF {IOError}.
Arguments ErrUnexpectedEOF {IOError}.
Arguments HexError {IOError}.
Arguments KeyError {IOError} e.

(** [io.ReadFull(fd, buf)] with [len(buf) = n] on a file that delivers
    [content]: exactly [n] bytes, or an error when there are fewer. *)
Definition ReadFull {IOError : Type} (content : list byte) (n : nat)
  : result (list byte) (LoadError IOError) :=
  if (n <=? length content)%nat then Ok (firstn n content)
  else if (length content =? 0)%nat then Err EOF
  else Err ErrUnexpectedEOF.

(** The assignment [s[i] = v]: a panic unless [i < len(s)]. *)
Fixpoint store (s : list byte) (i : nat) (v : byte) : run (list byte) :=
  match s, i with
  | [], _ => Panics
  | _ :: rest, O => Returns (v :: rest)
  | b :: rest, S j =>
      match store rest j v with
      | Returns rest' => Returns (b :: rest')
      | Panics => Panics
      end
  end.

(** Modelled from the spec: [chain_common.Hash] is not part of [crypto.go];
    the spec makes a hash a fixed-width 32-byte digest. *)
Definition HashLength : nat := 32.

(** ** Stand-ins for the hex codec and the file system *)

Module FixtureIO.

Definition hextable : list byte :=
  [x30; x31; x32; x33; x34; x35; x36; x37; x38; x39;
   x61; x62; x63; x64; x65; x66].

Definition hexdigit (n : Z) : byte := nth (Z.to_nat n) hextable x00.

Definition fromHexChar (c : byte) : option Z :=
  let v := BigInt.byte_val c in
  if (48 <=? v) && (v <=? 57) then Some (v - 48)
  else if (97 <=? v) && (v <=? 102) then Some (v - 87)
  else if (65 <=? v) && (v <=? 70) then Some (v - 55)
  else None.

Definition encode_byte (x : byte) : list byte :=
  [hexdigit (BigInt.byte_val x / 16); hexdigit (BigInt.byte_val x mod 16)].

Definition EncodeToString (b : list byte) : String.string :=
  String.string_of_list_byte (flat_map encode_byte b).

Fixpoint decode_pairs (l : list byte) : option (list byte) :=
  match l with
  | [] => Some []
  | hi :: lo :: rest =>
      match fromHexChar hi, fromHexChar lo, decode_pairs rest with
      | Some h, Some l, Some r => Some (BigInt.byte_of_Z (h * 16 + l) :: r)
      | _, _, _ => None
      end
  | _ => None
  end.

Definition DecodeString (s : String.string) : option (list byte) :=
  decode_pairs (String.list_byte_of_string s).

(** A file system that maps a name to the content of the file, if any, and
    in which writing always succeeds. *)
Definition FS : Type := String.string -> option (list byte).

Definition empty : FS := fun _ => None.

Definition WriteFile (fs : FS) (file : String.string) (data : list byte)
  (perm : Z) : FS * option unit :=
  (fun name => if String.eqb name file then Some data else fs name, None).

Definition Open (fs : FS) (file : String.string) : result (list byte) unit :=
  match fs file with
  | Some content => Ok content
  | None => Err tt
  end.

(** The key of the scalar 1 on the stand-in curve, its hex form, and a file
    name. *)
Definition key1 : PrivateKey :=
  {| Public := {| Curve := S256; X := Some 1; Y := Some 1 |}; D := 1 |}.

Definition hex1 : String.string := EncodeToString (Fixture.bytes32 1).

Definition keyfile : String.string :=
  String.string_of_list_byte [x6b; x65; x79].

End FixtureIO.

(** ** The functions of [crypto.go] *)

Section Crypto.

(** *** Collaborators *)

(** The sponge of package [sha3]: [NewKeccak256()], [d.Write(b)] and
    [d.Sum(b)], which appends the digest of what was written to [b]. *)
Variable KeccakState : Type.
Variable NewKeccak256 : KeccakState.
Variable Write : KeccakState -> list byte -> KeccakState.
Variable Sum : KeccakState -> list byte -> list byte.

(** The curve: [S256().ScalarBaseMult(k)] returns two [*big.Int], and
    [elliptic.Marshal(curve, x, y)] the point encoding. *)
Variable ScalarBaseMult : list byte -> option Z * option Z.
Variable Marshal : CurveParams -> Z -> Z -> list byte.
Variable Unmarshal : CurveParams -> list byte -> option Z * option Z.

(** [rlp.EncodeToBytes([]interface{}{b, nonce})] and [hex.DecodeString]. *)
Variable EncodeError : Type.
Variable EncodeToBytes : list byte -> Z -> result (list byte) EncodeError.
Variable DecodeString : String.string -> option (list byte).

(** *** Hash engine *)

(** [Keccak256(data ...[]byte)]: a fresh sponge, one [Write] per buffer in
    argument order, then [Sum(nil)]. *)
Definition Keccak256 (data : list (list byte)) : list byte :=
  let d := fold_left Write data NewKeccak256 in
  Sum d [].

(** *** Address derivation *)

(** [CreateAddress(b, nonce)].  The encoder's error is assigned to [_];
    [data] is then the nil slice. *)
Definition CreateAddress (b : list byte) (nonce : Z) : run (list byte) :=
  let data := match EncodeToBytes b nonce with
              | Ok data => data
              | Err _ => []
              end in
  match slice_from (Keccak256 [data]) 12 with
  | Returns low => Returns (BytesToAddress low)
  | Panics => Panics
  end.

(** *** Key codec *)

(** [toECDSA(d, strict)].  [8*len(d)] is computed on [int]; a slice is far
    shorter than [2^60] bytes, so the product does not wrap. *)
Definition toECDSA (d : list byte) (strict : bool)
  : result PrivateKey CryptoError :=
  let curve := S256 in
  if strict && negb (8 * Z.of_nat (length d) =? BitSize curve) then
    Err InvalidKeyLength
  else
    let D := BigInt.SetBytes d in
    if BigInt.Cmp D secp256k1N >=? 0 then Err KeyOutOfRange
    else if BigInt.Sign D <=? 0 then Err KeyNonPositive
    else
      let (x, y) := ScalarBaseMult d in
      match x with
      | None => Err InvalidPoint
      | Some _ =>
          Ok {| Public := {| Curve := curve; X := x; Y := y |}; D := D |}
      end.

(** [ToECDSA(d)]. *)
Definition ToECDSA (d : list byte) : result PrivateKey CryptoError :=
  toECDSA d true.

(** [ToECDSAUnsafe(d)]: [priv, _ := toECDSA(d, false); return priv].  The
    returned pointer is nil on every error path of [toECDSA]. *)
Definition ToECDSAUnsafe (d : list byte) : option PrivateKey :=
  match toECDSA d false with
  | Ok priv => Some priv
  | Err _ => None
  end.

(** [FromECDSA(priv)], [priv] a pointer that may be nil. *)
Definition FromECDSA (priv : option PrivateKey) : list byte :=
  match priv with
  | None => []
  | Some k => PaddedBigBytes (D k) (BitSize (Curve (Public k)) / 8)
  end.

(** [HexToECDSA(hexkey)]. *)
Definition HexToECDSA (hexkey : String.string) : result PrivateKey CryptoError :=
  match DecodeString hexkey with
  | None => Err InvalidHexString
  | Some b => ToECDSA b
  end.

(** *** Public key codec *)

(** [UnmarshalPubkey(pub)]. *)
Definition UnmarshalPubkey (pub : list byte) : result PublicKey CryptoError :=
  let (x, y) := Unmarshal S256 pub in
  match x with
  | None => Err InvalidPublicKey
  | Some _ => Ok {| Curve := S256; X := x; Y := y |}
  end.

(** [FromECDSAPub(pub)], [pub] a pointer that may be nil. *)
Definition FromECDSAPub (pub : option PublicKey) : list byte :=
  match pub with
  | None => []
  | Some p =>
      match X p, Y p with
      | Some x, Some y => Marshal S256 x y
      | _, _ => []
      end
  end.

(** [PubkeyToAddress(p)]: [p] is passed by value, so [&p] is never nil. *)
Definition PubkeyToAddress (p : PublicKey) : run (list byte) :=
  let pubBytes := FromECDSAPub (Some p) in
  match slice_from pubBytes 1 with
  | Panics => Panics
  | Returns body =>
      match slice_from (Keccak256 [body]) 12 with
      | Panics => Panics
      | Returns low => Returns (BytesToAddress low)
      end
  end.

(** *** Error reporting *)


(** *** More of the hash engine *)

(** [Keccak256Hash(data ...[]byte)]: the digest is appended by
    [d.Sum(h[:0])] to the empty slice whose backing array is the result [h].
    An append that fits the capacity of 32 bytes writes into [h]; a longer
    one goes to a new array and leaves [h] as it was. *)
Definition Keccak256Hash (data : list (list byte)) : list byte :=
  let h := repeat x00 HashLength in
  let d := fold_left Write data NewKeccak256 in
  let appended := Sum d [] in
  if (length appended <=? HashLength)%nat
  then appended ++ skipn (length appended) h
  else h.

(** *** Key files *)

(** [hex.EncodeToString], and the file system: [os.Open(file)] followed by
    reads gives the content of the file or fails, and
    [ioutil.WriteFile(file, data, perm)] returns the file system it leaves
    and its error, if any. *)
Variable EncodeToString : list byte -> String.string.
Variable IOError : Type.
Variable FS : Type.
Variable Open : FS -> String.string -> result (list byte) IOError.
Variable WriteFile :
  FS -> String.string -> list byte -> Z -> FS * option IOError.

(** [LoadECDSA(file)], reading from the file system [fs]. *)
Definition LoadECDSA (fs : FS) (file : String.string)
  : result PrivateKey (LoadError IOError) :=
  match Open fs file with
  | Err e => Err (OpenError e)
  | Ok content =>
      match ReadFull content 64 with
      | Err e => Err e
      | Ok buf =>
          match DecodeString (String.string_of_list_byte buf) with
          | None => Err HexError
          | Some key =>
              match ToECDSA key with
              | Ok priv => Ok priv
              | Err e => Err (KeyError e)
              end
          end
      end
  end.

(** [SaveECDSA(file, key)], writing to the file system [fs]; the permission
    bits are the octal [0600], which is [0x180]. *)
Definition SaveECDSA (fs : FS) (file : String.string)
  (key : option PrivateKey) : FS * option IOError :=
  let k := EncodeToString (FromECDSA key) in
  WriteFile fs file (String.list_byte_of_string k) 0x180.

(** *** Clearing a buffer *)

(** [zeroBytes(bytes)]: [for i := range bytes { bytes[i] = 0 }]. *)
Definition zeroBytes (bytes : list byte) : run (list byte) :=
  fold_left
    (fun acc i => match acc with
                  | Returns s => store s i x00
                  | Panics => Panics
                  end)
    (seq 0 (length bytes)) (Returns bytes).

(** ** Properties *)

(** *** Facts about [Cmp] *)

Lemma Cmp_lt0 x y : (BigInt.Cmp x y <? 0) = (x <? y).
Proof.
  unfold BigInt.Cmp. rewrite (Z.ltb_compare x y).
  destruct (x ?= y); reflexivity.
Qed.

Lemma Cmp_gt0 x y : (BigInt.Cmp x y >? 0) = (y <? x).
Proof.
  unfold BigInt.Cmp. rewrite (Z.ltb_compare y x), (Z.compare_antisym x y).
  destruct (x ?= y); reflexivity.
Qed.

Lemma Cmp_ge0 x y : (BigInt.Cmp x y >=? 0) = (y <=? x).
Proof.
  unfold BigInt.Cmp. rewrite (Z.leb_compare y x), (Z.compare_antisym x y).
  destruct (x ?= y); reflexivity.
Qed.

Lemma byte_eqb_eq (a b : byte) : Byte.eqb a b = true <-> a = b.
Proof.
  split; [apply Byte.byte_dec_bl | apply Byte.byte_dec_lb].
Qed.

(** C1. [ValidateSignatureValues v r s homestead] is true exactly when
    [r >= 1] and [s >= 1], and [s <= N/2] whenever the fork flag is set, and
    [r < N], [s < N], and [v] is the byte 0 or the byte 1. *)
Theorem ValidateSignatureValues_iff (v : byte) (r s : Z) (homestead : bool) :
  ValidateSignatureValues v r s homestead = true <->
  (1 <= r /\ 1 <= s) /\
  (homestead = true -> s <= secp256k1N / 2) /\
  (r < secp256k1N /\ s < secp256k1N /\ (v = x00 \/ v = x01)).
Proof.
  unfold ValidateSignatureValues, secp256k1halfN, Big1.
  rewrite !Cmp_lt0, Cmp_gt0.
  destruct (Z.ltb_spec r 1) as [Hr|Hr]; simpl.
  { split; [discriminate | lia]. }
  destruct (Z.ltb_spec s 1) as [Hs|Hs]; simpl.
  { split; [discriminate | lia]. }
  destruct homestead; simpl.
  - destruct (Z.ltb_spec (secp256k1N / 2) s) as [Hh|Hh].
    { split; [discriminate | intros (_ & H & _); specialize (H eq_refl); lia]. }
    rewrite !andb_true_iff, orb_true_iff, !Z.ltb_lt, !byte_eqb_eq.
    intuition lia.
  - rewrite !andb_true_iff, orb_true_iff, !Z.ltb_lt, !byte_eqb_eq.
    intuition (try discriminate; try lia).
Qed.

(** *** Facts about big-endian bytes *)

Lemma byte_val_range (b : byte) : 0 <= BigInt.byte_val b < 256.
Proof.
  unfold BigInt.byte_val. pose proof (Byte.to_N_bounded b). lia.
Qed.

Lemma byte_val_of_Z (z : Z) : BigInt.byte_val (BigInt.byte_of_Z z) = z mod 256.
Proof.
  unfold BigInt.byte_val, BigInt.byte_of_Z.
  pose proof (Z.mod_pos_bound z 256 ltac:(lia)) as Hm.
  destruct (Byte.of_N (Z.to_N (z mod 256))) as [b|] eqn:E.
  - apply Byte.to_of_N in E. rewrite E. lia.
  - apply Byte.of_N_None_iff in E. lia.
Qed.

Lemma byte_of_Z_val (q : Z) (b : byte) :
  BigInt.byte_of_Z (q * 256 + BigInt.byte_val b) = b.
Proof.
  unfold BigInt.byte_of_Z.
  pose proof (byte_val_range b) as Hb.
  replace ((q * 256 + BigInt.byte_val b) mod 256) with (BigInt.byte_val b).
  - unfold BigInt.byte_val. rewrite N2Z.id, Byte.of_to_N. reflexivity.
  - rewrite Z.add_comm, Z.mod_add by lia. symmetry. apply Z.mod_small. lia.
Qed.

Lemma SetBytes_snoc (l : list byte) (b : byte) :
  BigInt.SetBytes (l ++ [b]) = BigInt.SetBytes l * 256 + BigInt.byte_val b.
Proof.
  unfold BigInt.SetBytes. rewrite fold_left_app. reflexivity.
Qed.

Lemma SetBytes_range (l : list byte) :
  0 <= BigInt.SetBytes l < 256 ^ Z.of_nat (length l).
Proof.
  induction l as [|b l IH] using rev_ind.
  - cbn. lia.
  - rewrite SetBytes_snoc, length_app, Nat2Z.inj_add. cbn [length].
    rewrite Z.pow_add_r by lia. change (256 ^ Z.of_nat 1) with 256.
    pose proof (byte_val_range b). nia.
Qed.

Lemma SetBytes_zero_cons (l : list byte) :
  BigInt.SetBytes (x00 :: l) = BigInt.SetBytes l.
Proof. reflexivity. Qed.

Lemma be_bytes_length (n : nat) (x : Z) : length (BigInt.be_bytes n x) = n.
Proof.
  revert x. induction n as [|n IH]; intros x; cbn [BigInt.be_bytes].
  - reflexivity.
  - rewrite length_app, IH. cbn. lia.
Qed.

Lemma SetBytes_be_bytes (n : nat) (x : Z) :
  BigInt.SetBytes (BigInt.be_bytes n x) = x mod 256 ^ Z.of_nat n.
Proof.
  revert x. induction n as [|n IH]; intros x.
  - cbn. symmetry. apply Z.mod_1_r.
  - cbn [BigInt.be_bytes]. rewrite SetBytes_snoc, IH, byte_val_of_Z.
    rewrite Nat2Z.inj_succ, Z.pow_succ_r by lia.
    rewrite Z.rem_mul_r by lia. lia.
Qed.

Lemma be_bytes_SetBytes (l : list byte) :
  BigInt.be_bytes (length l) (BigInt.SetBytes l) = l.
Proof.
  induction l as [|b l IH] using rev_ind.
  - reflexivity.
  - rewrite length_app, Nat.add_comm. cbn [length Nat.add BigInt.be_bytes].
    rewrite SetBytes_snoc, byte_of_Z_val.
    pose proof (byte_val_range b).
    rewrite Z.div_add_l, Z.div_small, Z.add_0_r, IH by lia.
    reflexivity.
Qed.

Lemma BitLen_bound (x k : Z) : 0 <= k -> 0 <= x < 2 ^ k -> BigInt.BitLen x <= k.
Proof.
  intros Hk Hx. unfold BigInt.BitLen. rewrite Z.abs_eq by lia.
  destruct (Z.eqb_spec x 0) as [->|Hne]; [lia|].
  assert (Z.log2 x < k) by (apply Z.log2_lt_pow2; lia). lia.
Qed.

(** On a non-negative integer below [256^n], [PaddedBigBytes] is the
    big-endian encoding on exactly [n] bytes. *)
Lemma PaddedBigBytes_fits (x : Z) (n : nat) :
  0 <= x < 256 ^ Z.of_nat n ->
  PaddedBigBytes x (Z.of_nat n) = BigInt.be_bytes n x.
Proof.
  intros Hx. unfold PaddedBigBytes.
  assert (Hlen : BigInt.BitLen x <= 8 * Z.of_nat n).
  { apply BitLen_bound; [lia|].
    rewrite Z.pow_mul_r by lia. exact Hx. }
  rewrite Z.abs_eq, Nat2Z.id by lia.
  destruct (Z.geb_spec (BigInt.BitLen x / 8) (Z.of_nat n)) as [Hge|Hlt];
    [|reflexivity].
  assert (Heq : BigInt.BitLen x = 8 * Z.of_nat n).
  { pose proof (Z.mul_div_le (BigInt.BitLen x) 8 ltac:(lia)). lia. }
  unfold BigInt.Bytes. rewrite Heq, Z.abs_eq by lia.
  replace ((8 * Z.of_nat n + 7) / 8) with (Z.of_nat n).
  - rewrite Nat2Z.id. reflexivity.
  - apply Z.div_unique with (r := 7); lia.
Qed.

(** *** Hash engine *)

(** Modelled from the spec: package [sha3] is not part of [crypto.go].  The
    spec has the engine feed the buffers to the hash function in order and
    return the digest of their concatenation, a digest of 32 bytes: writing
    in pieces is writing the concatenation, writing nothing changes nothing,
    and [Sum(nil)] is 32 bytes long. *)
Hypothesis Write_app :
  forall s a b, Write (Write s a) b = Write s (a ++ b).
Hypothesis Write_nil : forall s, Write s [] = s.
Hypothesis Sum_length : forall s, length (Sum s []) = 32%nat.

Lemma fold_left_Write (data : list (list byte)) (s : KeccakState) :
  fold_left Write data s = Write s (concat data).
Proof.
  revert s. induction data as [|b data IH]; intros s; cbn [fold_left concat].
  - symmetry. apply Write_nil.
  - rewrite IH. apply Write_app.
Qed.

(** C7. [Keccak256] of any list of buffers, the empty list included, is
    the digest of their concatenation in argument order: what [Sum(nil)]
    returns for a fresh sponge into which the concatenation was written at
    once.  Hence it is [Keccak256] of the single buffer that concatenates
    them, and buffer lists with the same concatenation have the same digest.
    The result always has 32 bytes, and equal arguments give equal
    results. *)
Theorem Keccak256_concat (data : list (list byte)) :
  Keccak256 data = Sum (Write NewKeccak256 (concat data)) [] /\
  Keccak256 data = Keccak256 [concat data] /\
  (forall data', concat data' = concat data ->
                 Keccak256 data' = Keccak256 data) /\
  length (Keccak256 data) = 32%nat /\
  (forall data', data' = data -> Keccak256 data' = Keccak256 data).
Proof.
  assert (Hdigest : forall l,
             Keccak256 l = Sum (Write NewKeccak256 (concat l)) []).
  { intros l. unfold Keccak256. rewrite fold_left_Write. reflexivity. }
  split; [apply Hdigest|]. split; [|split; [|split]].
  - rewrite (Hdigest data), (Hdigest [concat data]). cbn [concat].
    rewrite app_nil_r. reflexivity.
  - intros data' Hc. rewrite (Hdigest data'), (Hdigest data), Hc. reflexivity.
  - apply Sum_length.
  - intros data' ->. reflexivity.
Qed.

(** *** Key codec *)

Lemma Sign_le0 (x : Z) : (BigInt.Sign x <=? 0) = (x <=? 0).
Proof. destruct x; reflexivity. Qed.

(** [toECDSA] with its comparisons on [big.Int] read as comparisons on [Z]. *)
Lemma toECDSA_cases (d : list byte) (strict : bool) :
  toECDSA d strict =
  if strict && negb (length d =? 32)%nat then Err InvalidKeyLength
  else if secp256k1N <=? BigInt.SetBytes d then Err KeyOutOfRange
  else if BigInt.SetBytes d <=? 0 then Err KeyNonPositive
  else match ScalarBaseMult d with
       | (None, _) => Err InvalidPoint
       | (Some x, y) =>
           Ok {| Public := {| Curve := S256; X := Some x; Y := y |};
                 D := BigInt.SetBytes d |}
       end.
Proof.
  unfold toECDSA. rewrite Cmp_ge0, Sign_le0.
  replace (8 * Z.of_nat (length d) =? BitSize S256) with (length d =? 32)%nat.
  - destruct (ScalarBaseMult d) as [[x|] y]; reflexivity.
  - cbn [BitSize S256].
    destruct (Nat.eqb_spec (length d) 32) as [E|E];
      destruct (Z.eqb_spec (8 * Z.of_nat (length d)) 256) as [E'|E'];
      try reflexivity; lia.
Qed.

Lemma toECDSA_Ok_inv (d : list byte) (strict : bool) (k : PrivateKey) :
  toECDSA d strict = Ok k ->
  D k = BigInt.SetBytes d /\ 0 < BigInt.SetBytes d < secp256k1N /\
  Curve (Public k) = S256 /\
  X (Public k) = fst (ScalarBaseMult d) /\ Y (Public k) = snd (ScalarBaseMult d) /\
  X (Public k) <> None.
Proof.
  rewrite toECDSA_cases.
  destruct (strict && negb (length d =? 32)%nat); [discriminate|].
  destruct (Z.leb_spec secp256k1N (BigInt.SetBytes d)); [discriminate|].
  destruct (Z.leb_spec (BigInt.SetBytes d) 0); [discriminate|].
  destruct (ScalarBaseMult d) as [[x|] y]; [|discriminate].
  intros [= <-]. cbn. repeat split; try lia. discriminate.
Qed.

(** C2. Whatever the mode, a key that [toECDSA] returns has its scalar, the
    big-endian value of the input, strictly between 0 and N.  Once the length
    check of the strict mode passes (and always in lenient mode), a value of
    N or more fails with [KeyOutOfRange] and a value of 0 or less fails with
    [KeyNonPositive]. *)
Theorem toECDSA_scalar_range (d : list byte) (strict : bool) :
  (forall k, toECDSA d strict = Ok k ->
             D k = BigInt.SetBytes d /\ 0 < D k < secp256k1N) /\
  ((strict = true -> length d = 32%nat) ->
   (secp256k1N <= BigInt.SetBytes d -> toECDSA d strict = Err KeyOutOfRange) /\
   (BigInt.SetBytes d <= 0 -> toECDSA d strict = Err KeyNonPositive)).
Proof.
  split.
  - intros k Hk. apply toECDSA_Ok_inv in Hk as (HD & Hr & _). rewrite HD.
    split; [reflexivity | exact Hr].
  - intros Hlen. rewrite toECDSA_cases.
    assert (Hchk : strict && negb (length d =? 32)%nat = false).
    { destruct strict; [|reflexivity].
      rewrite (Hlen eq_refl). reflexivity. }
    rewrite Hchk. split; intros Hv.
    + destruct (Z.leb_spec secp256k1N (BigInt.SetBytes d)); [reflexivity | lia].
    + destruct (Z.leb_spec secp256k1N (BigInt.SetBytes d)) as [Hn|Hn].
      { unfold secp256k1N in Hn. lia. }
      destruct (Z.leb_spec (BigInt.SetBytes d) 0); [reflexivity | lia].
Qed.


(** What [crypto.go] relies on from the curve: the base point has order N,
    so a scalar strictly between 0 and N never yields the point that the
    curve signals by nil coordinates; and a scalar of fewer than 32 bytes is
    read as if it were padded with zero bytes on the left. *)
Hypothesis ScalarBaseMult_point :
  forall k, 0 < BigInt.SetBytes k < secp256k1N -> fst (ScalarBaseMult k) <> None.
Hypothesis ScalarBaseMult_leading_zero :
  forall k, (length k < 32)%nat -> ScalarBaseMult (x00 :: k) = ScalarBaseMult k.

Lemma secp256k1N_fits : secp256k1N < 256 ^ Z.of_nat 32.
Proof. reflexivity. Qed.

Lemma toECDSA_in_range (d : list byte) (strict : bool) :
  (strict = true -> length d = 32%nat) ->
  0 < BigInt.SetBytes d < secp256k1N ->
  exists x y,
    ScalarBaseMult d = (Some x, y) /\
    toECDSA d strict =
    Ok {| Public := {| Curve := S256; X := Some x; Y := y |};
          D := BigInt.SetBytes d |}.
Proof.
  intros Hlen Hr. rewrite toECDSA_cases.
  assert (Hchk : strict && negb (length d =? 32)%nat = false).
  { destruct strict; [|reflexivity]. rewrite (Hlen eq_refl). reflexivity. }
  rewrite Hchk.
  destruct (Z.leb_spec secp256k1N (BigInt.SetBytes d)); [lia|].
  destruct (Z.leb_spec (BigInt.SetBytes d) 0); [lia|].
  pose proof (ScalarBaseMult_point d Hr) as Hp.
  destruct (ScalarBaseMult d) as [[x|] y]; [|contradiction Hp; reflexivity].
  exists x, y. split; reflexivity.
Qed.

Lemma FromECDSA_of_decoded (d : list byte) (strict : bool) (k : PrivateKey) :
  toECDSA d strict = Ok k ->
  FromECDSA (Some k) = BigInt.be_bytes 32 (BigInt.SetBytes d).
Proof.
  intros Hk. apply toECDSA_Ok_inv in Hk as (HD & Hr & HC & _).
  unfold FromECDSA. rewrite HD, HC.
  change (BitSize S256 / 8) with (Z.of_nat 32).
  apply PaddedBigBytes_fits. pose proof secp256k1N_fits. lia.
Qed.

(** C5. For a scalar [d] strictly between 0 and N and its big-endian
    encoding on 32 bytes, strict decoding succeeds with scalar [d],
    [FromECDSA] of the decoded key is the same 32 bytes, and decoding those
    strictly again succeeds with the same key, hence the same scalar. *)
Theorem toECDSA_FromECDSA_roundtrip (d : Z) :
  0 < d < secp256k1N ->
  let d_bytes := BigInt.be_bytes 32 d in
  exists k,
    toECDSA d_bytes true = Ok k /\ D k = d /\
    FromECDSA (Some k) = d_bytes /\ length (FromECDSA (Some k)) = 32%nat /\
    toECDSA (FromECDSA (Some k)) true = Ok k.
Proof.
  intros Hd d_bytes.
  assert (Hv : BigInt.SetBytes d_bytes = d).
  { unfold d_bytes. rewrite SetBytes_be_bytes. apply Z.mod_small.
    pose proof secp256k1N_fits. lia. }
  assert (Hl : length d_bytes = 32%nat) by apply be_bytes_length.
  destruct (toECDSA_in_range d_bytes true) as (x & y & _ & Hk).
  { intros _. exact Hl. }
  { rewrite Hv. exact Hd. }
  pose proof (FromECDSA_of_decoded _ _ _ Hk) as Hf.
  rewrite Hv in Hf, Hk. fold d_bytes in Hf.
  match type of Hk with _ = Ok ?key => exists key end.
  rewrite Hf. split; [exact Hk|]. split; [reflexivity|].
  split; [reflexivity|]. split; [exact Hl | exact Hk].
Qed.

(** C6. For an input [b] of 31 bytes whose big-endian value lies strictly
    between 0 and N, lenient decoding succeeds, and strict decoding of [b]
    with one zero byte in front returns the same key: same scalar, same
    public point. *)
Theorem ToECDSAUnsafe_31_bytes (b : list byte) :
  length b = 31%nat ->
  0 < BigInt.SetBytes b < secp256k1N ->
  exists k,
    ToECDSAUnsafe b = Some k /\ ToECDSA (x00 :: b) = Ok k /\
    D k = BigInt.SetBytes b /\
    X (Public k) = fst (ScalarBaseMult b) /\
    Y (Public k) = snd (ScalarBaseMult b).
Proof.
  intros Hl Hr.
  destruct (toECDSA_in_range b false) as (x & y & Hx & Hk);
    [discriminate | exact Hr |].
  destruct (toECDSA_in_range (x00 :: b) true) as (x' & y' & Hx' & Hk').
  { intros _. cbn [length]. rewrite Hl. reflexivity. }
  { rewrite SetBytes_zero_cons. exact Hr. }
  rewrite ScalarBaseMult_leading_zero, Hx in Hx' by lia.
  injection Hx' as <- <-.
  rewrite SetBytes_zero_cons in Hk'.
  match type of Hk with _ = Ok ?key => exists key end.
  unfold ToECDSAUnsafe, ToECDSA. rewrite Hk, Hk', Hx.
  repeat split; reflexivity.
Qed.

(** *** Error reporting *)



Lemma slice_from_digest (data : list (list byte)) :
  slice_from (Keccak256 data) 12 = Returns (skipn 12 (Keccak256 data)) /\
  length (skipn 12 (Keccak256 data)) = 20%nat.
Proof.
  assert (Hl : length (Keccak256 data) = 32%nat) by apply Sum_length.
  unfold slice_from. rewrite length_skipn, Hl. split; reflexivity.
Qed.

Lemma BytesToAddress_length (b : list byte) :
  length (BytesToAddress b) = AddressLength.
Proof.
  unfold BytesToAddress. rewrite length_app, repeat_length, length_skipn.
  unfold AddressLength. lia.
Qed.

Lemma BytesToAddress_exact (b : list byte) :
  length b = AddressLength -> BytesToAddress b = b.
Proof.
  intros Hl. unfold BytesToAddress. rewrite Hl, Nat.sub_diag. cbn [skipn].
  rewrite Hl, Nat.sub_diag. reflexivity.
Qed.

(** With an encoding in hand, [CreateAddress] is the low 20 bytes of the
    digest of the encoding. *)
Lemma CreateAddress_encoded (b : list byte) (nonce : Z) (data : list byte) :
  EncodeToBytes b nonce = Ok data ->
  CreateAddress b nonce = Returns (skipn 12 (Keccak256 [data])).
Proof.
  intros E. unfold CreateAddress. rewrite E.
  destruct (slice_from_digest [data]) as [-> Hl].
  rewrite BytesToAddress_exact by exact Hl. reflexivity.
Qed.


(** *** Address derivation *)

(** [elliptic.Marshal] returns the format tag followed by the coordinates:
    its result is never empty. *)
Hypothesis Marshal_nonempty : forall x y, Marshal S256 x y <> [].

Lemma slice_from_1 (s : list byte) :
  s <> [] -> slice_from s 1 = Returns (skipn 1 s).
Proof.
  destruct s as [|b s]; [contradiction | reflexivity].
Qed.

Lemma PubkeyToAddress_formed (p : PublicKey) (x y : Z) :
  X p = Some x -> Y p = Some y ->
  FromECDSAPub (Some p) = Marshal S256 x y /\
  PubkeyToAddress p =
    Returns (skipn 12 (Keccak256 [skipn 1 (Marshal S256 x y)])).
Proof.
  intros Hx Hy.
  assert (Hm : FromECDSAPub (Some p) = Marshal S256 x y).
  { unfold FromECDSAPub. rewrite Hx, Hy. reflexivity. }
  split; [exact Hm|].
  unfold PubkeyToAddress. rewrite Hm, slice_from_1 by apply Marshal_nonempty.
  destruct (slice_from_digest [skipn 1 (Marshal S256 x y)]) as [-> Hl].
  rewrite BytesToAddress_exact by exact Hl. reflexivity.
Qed.

(** C4. For a public key with both coordinates, [PubkeyToAddress] returns
    bytes 12 to 31 of the 32-byte [Keccak256] digest of the point encoding
    without its first byte; the address has exactly 20 bytes, and the same
    key always gives the same address. *)
Theorem PubkeyToAddress_spec (p : PublicKey) (x y : Z) :
  X p = Some x -> Y p = Some y ->
  let encoding := Marshal S256 x y in
  let digest := Keccak256 [skipn 1 encoding] in
  length digest = 32%nat /\
  PubkeyToAddress p = Returns (firstn 20 (skipn 12 digest)) /\
  length (firstn 20 (skipn 12 digest)) = 20%nat /\
  (forall p', p' = p -> PubkeyToAddress p' = PubkeyToAddress p).
Proof.
  intros Hx Hy encoding digest.
  destruct (PubkeyToAddress_formed p x y Hx Hy) as [_ Hp].
  destruct (slice_from_digest [skipn 1 encoding]) as [_ Hl].
  fold digest in Hl.
  assert (Hf : firstn 20 (skipn 12 digest) = skipn 12 digest).
  { apply firstn_all2. rewrite Hl. apply Nat.le_refl. }
  rewrite Hf. split; [apply Sum_length|]. split; [exact Hp|].
  split; [exact Hl|]. intros p' ->. reflexivity.
Qed.

(** C10. [PubkeyToAddress] stops with a panic exactly when a coordinate of
    the key is nil: [FromECDSAPub] then returns the empty slice and the slice
    expression [pubBytes[1:]] is out of range.  With both coordinates present
    it returns an address. *)
Theorem PubkeyToAddress_panics_iff (p : PublicKey) :
  (X p = None \/ Y p = None ->
   FromECDSAPub (Some p) = [] /\
   slice_from (FromECDSAPub (Some p)) 1 = Panics) /\
  (PubkeyToAddress p = Panics <-> X p = None \/ Y p = None) /\
  (X p <> None /\ Y p <> None ->
   exists addr, PubkeyToAddress p = Returns addr /\ length addr = 20%nat).
Proof.
  assert (Hnil : X p = None \/ Y p = None -> FromECDSAPub (Some p) = []).
  { unfold FromECDSAPub. intros [H|H]; rewrite H; [|destruct (X p)]; reflexivity. }
  split; [|split].
  - intros H. rewrite (Hnil H). split; reflexivity.
  - split.
    + destruct (X p) as [x|] eqn:Hx; [|left; reflexivity].
      destruct (Y p) as [y|] eqn:Hy; [|right; reflexivity].
      destruct (PubkeyToAddress_formed p x y Hx Hy) as [_ ->]. discriminate.
    + intros H. unfold PubkeyToAddress. rewrite (Hnil H). reflexivity.
  - intros [Hx Hy].
    destruct (X p) as [x|] eqn:Ex; [|contradiction].
    destruct (Y p) as [y|] eqn:Ey; [|contradiction].
    destruct (PubkeyToAddress_formed p x y Ex Ey) as [_ ->].
    eexists. split; [reflexivity|]. apply slice_from_digest.
Qed.

(** *** More on the signature validator *)

Lemma ValidateSignatureValues_bool (v : byte) (r s : Z) (homestead : bool) :
  ValidateSignatureValues v r s homestead =
  (1 <=? r) && (1 <=? s) && (negb homestead || (s <=? secp256k1N / 2)) &&
  ((r <? secp256k1N) && (s <? secp256k1N) &&
   (Byte.eqb v x00 || Byte.eqb v x01)).
Proof.
  unfold ValidateSignatureValues, secp256k1halfN, Big1.
  rewrite !Cmp_lt0, Cmp_gt0.
  destruct (Z.ltb_spec r 1), (Z.leb_spec 1 r); try lia; cbn [orb andb];
    try reflexivity.
  destruct (Z.ltb_spec s 1), (Z.leb_spec 1 s); try lia; cbn [orb andb];
    try reflexivity.
  destruct homestead; cbn [andb negb orb]; try reflexivity.
  destruct (Z.ltb_spec (secp256k1N / 2) s), (Z.leb_spec s (secp256k1N / 2));
    try lia; reflexivity.
Qed.

Lemma secp256k1N_odd : secp256k1N = 2 * (secp256k1N / 2) + 1.
Proof. reflexivity. Qed.

(** X1. The rules after the fork are the stricter ones: values accepted
    with the flag set are accepted without it. *)
Theorem ValidateSignatureValues_homestead_stricter
  (v : byte) (r s : Z) :
  ValidateSignatureValues v r s true = true ->
  ValidateSignatureValues v r s false = true.
Proof.
  rewrite !ValidateSignatureValues_bool. cbn [negb orb].
  rewrite !andb_true_iff. intros [[[Hr Hs] _] Hrest].
  rewrite Hr, Hs. auto.
Qed.

(** X2. With the flag set, a signature and its twin [(r, N - s)] are never
    both accepted: if [s] is accepted then [N - s] is rejected, whatever
    [v] and [r] come with it. *)
Theorem ValidateSignatureValues_no_twin (v : byte) (r s : Z) :
  ValidateSignatureValues v r s true = true ->
  forall v' r', ValidateSignatureValues v' r' (secp256k1N - s) true = false.
Proof.
  rewrite ValidateSignatureValues_bool. cbn [negb orb].
  rewrite !andb_true_iff, !Z.leb_le. intros [[[_ Hs] Hh] _] v' r'.
  rewrite ValidateSignatureValues_bool. cbn [negb orb].
  pose proof secp256k1N_odd as Hodd.
  destruct (Z.leb_spec (secp256k1N - s) (secp256k1N / 2)) as [Hle|Hgt].
  - exfalso. revert Hodd Hh Hle.
    generalize (secp256k1N / 2). generalize secp256k1N. intros; lia.
  - rewrite !andb_false_r. reflexivity.
Qed.

(** X3. Without the flag, [s] and [N - s] are accepted or rejected
    together. *)
Theorem ValidateSignatureValues_frontier_twin (v : byte) (r s : Z) :
  ValidateSignatureValues v r (secp256k1N - s) false =
  ValidateSignatureValues v r s false.
Proof.
  rewrite !ValidateSignatureValues_bool. cbn [negb orb].
  rewrite !andb_true_r.
  destruct (Z.leb_spec 1 (secp256k1N - s)), (Z.ltb_spec s secp256k1N),
    (Z.leb_spec 1 s), (Z.ltb_spec (secp256k1N - s) secp256k1N);
    try lia; cbn [andb]; rewrite ?andb_false_r, ?andb_true_r; reflexivity.
Qed.

(** *** More on the key codec *)

Lemma toECDSA_strict_length (d : list byte) (k : PrivateKey) :
  toECDSA d true = Ok k -> length d = 32%nat.
Proof.
  rewrite toECDSA_cases. cbn [andb].
  destruct (Nat.eqb_spec (length d) 32) as [E|E]; [intros _; exact E|].
  discriminate.
Qed.

Lemma FromECDSA_of_strict (d : list byte) (k : PrivateKey) :
  toECDSA d true = Ok k -> FromECDSA (Some k) = d.
Proof.
  intros Hk. rewrite (FromECDSA_of_decoded _ _ _ Hk).
  rewrite <- (toECDSA_strict_length _ _ Hk). apply be_bytes_SetBytes.
Qed.


(** X5. A key returned by lenient decoding is exported on exactly 32 bytes
    that have the same big-endian value as the input, whatever the length of
    the input was. *)
Theorem FromECDSA_ToECDSAUnsafe (d : list byte) (k : PrivateKey) :
  ToECDSAUnsafe d = Some k ->
  length (FromECDSA (Some k)) = 32%nat /\
  BigInt.SetBytes (FromECDSA (Some k)) = BigInt.SetBytes d /\
  D k = BigInt.SetBytes d.
Proof.
  unfold ToECDSAUnsafe. destruct (toECDSA d false) as [k'|e] eqn:Hk;
    [|discriminate].
  intros [= ->]. rewrite (FromECDSA_of_decoded _ _ _ Hk).
  apply toECDSA_Ok_inv in Hk as (HD & Hr & _).
  split; [apply be_bytes_length|]. split; [|exact HD].
  rewrite SetBytes_be_bytes. apply Z.mod_small.
  pose proof secp256k1N_fits. lia.
Qed.


(** X19. Strict and lenient decoding agree on inputs of 32 bytes, and every
    key that strict decoding returns is the key that lenient decoding
    returns for the same input. *)
Theorem ToECDSA_ToECDSAUnsafe_agree (d : list byte) (k : PrivateKey) :
  (ToECDSA d = Ok k -> ToECDSAUnsafe d = Some k) /\
  (length d = 32%nat -> ToECDSAUnsafe d = Some k -> ToECDSA d = Ok k).
Proof.
  unfold ToECDSA, ToECDSAUnsafe. split.
  - intros Hk. pose proof (toECDSA_strict_length _ _ Hk) as Hl.
    rewrite toECDSA_cases in Hk |- *. rewrite Hl in Hk. cbn [Nat.eqb negb andb] in Hk |- *.
    rewrite Hk. reflexivity.
  - intros Hl. rewrite !toECDSA_cases, Hl. cbn [Nat.eqb negb andb].
    destruct (secp256k1N <=? BigInt.SetBytes d); [discriminate|].
    destruct (BigInt.SetBytes d <=? 0); [discriminate|].
    destruct (ScalarBaseMult d) as [[x|] y]; [|discriminate].
    intros [= <-]. reflexivity.
Qed.


(** *** More on hashing and addresses *)

(** X7. [Keccak256Hash] holds the same 32 bytes that [Keccak256] returns
    for the same buffers: appending the digest to [h[:0]] fills [h]. *)
Theorem Keccak256Hash_Keccak256 (data : list (list byte)) :
  Keccak256Hash data = Keccak256 data /\
  length (Keccak256Hash data) = HashLength.
Proof.
  assert (Hl : length (Keccak256 data) = 32%nat) by apply Sum_length.
  assert (He : Keccak256Hash data = Keccak256 data).
  { unfold Keccak256Hash. fold (Keccak256 data). rewrite Hl.
    cbn [Nat.leb HashLength]. change (skipn 32 (repeat x00 32)) with (@nil byte).
    apply app_nil_r. }
  rewrite He. split; [reflexivity | exact Hl].
Qed.

(** X8. [CreateAddress] never panics and always returns 20 bytes, for every
    address, nonce and outcome of the encoder. *)
Theorem CreateAddress_returns (b : list byte) (nonce : Z) :
  exists addr,
    CreateAddress b nonce = Returns addr /\ length addr = AddressLength.
Proof.
  unfold CreateAddress.
  destruct (EncodeToBytes b nonce) as [data|e].
  - destruct (slice_from_digest [data]) as [-> _].
    eexists. split; [reflexivity | apply BytesToAddress_length].
  - destruct (slice_from_digest [[]]) as [-> _].
    eexists. split; [reflexivity | apply BytesToAddress_length].
Qed.

(** X9. [FromECDSAPub] and [PubkeyToAddress] always encode on the package's
    curve and never read the [Curve] field of the key: keys with the same
    coordinates have the same encoding and the same address. *)
Theorem PubkeyToAddress_ignores_Curve (p q : PublicKey) :
  X p = X q -> Y p = Y q ->
  FromECDSAPub (Some p) = FromECDSAPub (Some q) /\
  PubkeyToAddress p = PubkeyToAddress q.
Proof.
  intros Hx Hy.
  assert (He : FromECDSAPub (Some p) = FromECDSAPub (Some q)).
  { unfold FromECDSAPub. rewrite Hx, Hy. reflexivity. }
  split; [exact He|]. unfold PubkeyToAddress. rewrite He. reflexivity.
Qed.

(** X10. Decoding what [FromECDSAPub] encodes: for a key with both
    coordinates whose encoding the curve decodes back to them,
    [UnmarshalPubkey] returns those coordinates on the package's curve; for a
    key with a nil coordinate the encoding is empty, and [UnmarshalPubkey]
    fails with [errInvalidPubkey] when the curve decodes nothing from it. *)
Theorem UnmarshalPubkey_FromECDSAPub (p : PublicKey) :
  (forall x y, X p = Some x -> Y p = Some y ->
     Unmarshal S256 (Marshal S256 x y) = (Some x, Some y) ->
     UnmarshalPubkey (FromECDSAPub (Some p))
     = Ok {| Curve := S256; X := Some x; Y := Some y |}) /\
  (X p = None \/ Y p = None ->
   fst (Unmarshal S256 []) = None ->
   UnmarshalPubkey (FromECDSAPub (Some p)) = Err InvalidPublicKey).
Proof.
  split.
  - intros x y Hx Hy Hu. unfold UnmarshalPubkey, FromECDSAPub.
    rewrite Hx, Hy, Hu. reflexivity.
  - intros Hnil Hu.
    assert (He : FromECDSAPub (Some p) = []).
    { unfold FromECDSAPub.
      destruct Hnil as [H|H]; rewrite H; [|destruct (X p)]; reflexivity. }
    rewrite He. unfold UnmarshalPubkey.
    destruct (Unmarshal S256 []) as [x y]. cbn in Hu. rewrite Hu. reflexivity.
Qed.

(** *** Key files *)

(** What the key files rely on from the hex codec and the file system:
    decoding an encoding gives the bytes back, an encoding has two characters
    per byte, and a file that was written without an error opens with the
    content that was written. *)
Hypothesis DecodeString_EncodeToString :
  forall b, DecodeString (EncodeToString b) = Some b.
Hypothesis EncodeToString_length :
  forall b, length (String.list_byte_of_string (EncodeToString b))
            = (2 * length b)%nat.
Hypothesis Open_WriteFile :
  forall fs file data perm fs',
    WriteFile fs file data perm = (fs', None) -> Open fs' file = Ok data.

(** X12. The hex form of an exported key decodes to the key: for a key [k]
    returned by strict decoding, [HexToECDSA] of the hex encoding of
    [FromECDSA k] returns [k]. *)
Theorem HexToECDSA_EncodeToString (d : list byte) (k : PrivateKey) :
  ToECDSA d = Ok k ->
  HexToECDSA (EncodeToString (FromECDSA (Some k))) = Ok k.
Proof.
  unfold ToECDSA. intros Hk. rewrite (FromECDSA_of_strict _ _ Hk).
  unfold HexToECDSA. rewrite DecodeString_EncodeToString. exact Hk.
Qed.

(** X13. A file shorter than 64 bytes is never decoded: [LoadECDSA] fails
    with [io.EOF] when the file is empty and with [io.ErrUnexpectedEOF]
    otherwise. *)
Theorem LoadECDSA_short_file (fs : FS) (file : String.string)
  (content : list byte) :
  Open fs file = Ok content -> (length content < 64)%nat ->
  LoadECDSA fs file =
  Err (if (length content =? 0)%nat then EOF else ErrUnexpectedEOF).
Proof.
  intros Ho Hl. unfold LoadECDSA, ReadFull. rewrite Ho.
  destruct (Nat.leb_spec 64 (length content)); [lia|].
  destruct (length content =? 0)%nat; reflexivity.
Qed.

(** X14. [LoadECDSA] reads the first 64 bytes only: two files of at least 64
    bytes that agree on them load to the same result, whatever follows. *)
Theorem LoadECDSA_first_64 (fs1 fs2 : FS) (file1 file2 : String.string)
  (c1 c2 : list byte) :
  Open fs1 file1 = Ok c1 -> Open fs2 file2 = Ok c2 ->
  (64 <= length c1)%nat -> (64 <= length c2)%nat ->
  firstn 64 c1 = firstn 64 c2 ->
  LoadECDSA fs1 file1 = LoadECDSA fs2 file2.
Proof.
  intros H1 H2 L1 L2 He. unfold LoadECDSA, ReadFull. rewrite H1, H2.
  destruct (Nat.leb_spec 64 (length c1)); [|lia].
  destruct (Nat.leb_spec 64 (length c2)); [|lia].
  rewrite He. reflexivity.
Qed.

(** X15. Saving then loading: when [SaveECDSA] writes a key returned by
    strict decoding without an error, [LoadECDSA] on the same file returns
    that key. *)
Theorem LoadECDSA_SaveECDSA (fs fs' : FS) (file : String.string)
  (d : list byte) (k : PrivateKey) :
  ToECDSA d = Ok k ->
  SaveECDSA fs file (Some k) = (fs', None) ->
  LoadECDSA fs' file = Ok k.
Proof.
  unfold ToECDSA, SaveECDSA. intros Hk Hs.
  rewrite (FromECDSA_of_strict _ _ Hk) in Hs.
  apply Open_WriteFile in Hs.
  pose proof (EncodeToString_length d) as Hl.
  rewrite (toECDSA_strict_length _ _ Hk) in Hl.
  unfold LoadECDSA, ReadFull. rewrite Hs, Hl. cbn [Nat.mul Nat.add Nat.leb].
  rewrite firstn_all2 by (rewrite Hl; apply Nat.le_refl).
  rewrite String.string_of_list_byte_of_string, DecodeString_EncodeToString.
  unfold ToECDSA. rewrite Hk. reflexivity.
Qed.

(** X16. [SaveECDSA] accepts a nil key and writes an empty file for it;
    [LoadECDSA] on that file fails with [io.EOF]. *)
Theorem LoadECDSA_SaveECDSA_nil (fs fs' : FS) (file : String.string) :
  SaveECDSA fs file None = (fs', None) ->
  Open fs' file = Ok [] /\ LoadECDSA fs' file = Err EOF.
Proof.
  unfold SaveECDSA. cbn [FromECDSA]. intros Hs.
  apply Open_WriteFile in Hs.
  pose proof (EncodeToString_length []) as Hl. cbn [length Nat.mul] in Hl.
  destruct (String.list_byte_of_string (EncodeToString [])) as [|c rest];
    [|discriminate].
  split; [exact Hs|]. unfold LoadECDSA. rewrite Hs. reflexivity.
Qed.

(** X18. [LoadECDSA] returns a key only when the file has at least 64 bytes
    and its first 64 bytes are the hex form of 32 bytes whose value lies
    strictly between 0 and N; the key is the strict decoding of those. *)
Theorem LoadECDSA_Ok_inv (fs : FS) (file : String.string) (k : PrivateKey) :
  LoadECDSA fs file = Ok k ->
  exists content key,
    Open fs file = Ok content /\ (64 <= length content)%nat /\
    DecodeString (String.string_of_list_byte (firstn 64 content)) = Some key /\
    length key = 32%nat /\ ToECDSA key = Ok k /\
    D k = BigInt.SetBytes key /\ 0 < D k < secp256k1N.
Proof.
  unfold LoadECDSA, ReadFull.
  destruct (Open fs file) as [content|e]; [|discriminate].
  destruct (Nat.leb_spec 64 (length content)) as [Hl|Hl].
  - destruct (DecodeString _) as [key|] eqn:Hd; [|discriminate].
    destruct (ToECDSA key) as [k'|e] eqn:Hk; [|discriminate].
    intros [= ->]. exists content, key.
    pose proof (toECDSA_strict_length _ _ Hk) as Hlen.
    pose proof Hk as Hk'. apply toECDSA_Ok_inv in Hk' as (HD & Hr & _).
    rewrite HD. repeat split; try assumption; lia.
  - destruct (length content =? 0)%nat; discriminate.
Qed.

(** *** Clearing a buffer *)

Lemma store_at (pre rest : list byte) (b v : byte) :
  store (pre ++ b :: rest) (length pre) v = Returns (pre ++ v :: rest).
Proof.
  induction pre as [|a pre IH]; cbn [app length store].
  - reflexivity.
  - rewrite IH. reflexivity.
Qed.

Lemma zero_loop (rest pre : list byte) :
  fold_left
    (fun acc i => match acc with
                  | Returns s => store s i x00
                  | Panics => Panics
                  end)
    (seq (length pre) (length rest)) (Returns (pre ++ rest))
  = Returns (pre ++ repeat x00 (length rest)).
Proof.
  revert pre. induction rest as [|b rest IH]; intros pre.
  - reflexivity.
  - cbn [length seq fold_left repeat]. rewrite store_at.
    replace (pre ++ x00 :: rest) with ((pre ++ [x00]) ++ rest)
      by (rewrite <- app_assoc; reflexivity).
    replace (S (length pre)) with (length (pre ++ [x00]))
      by (rewrite length_app; cbn; lia).
    rewrite IH, <- app_assoc. reflexivity.
Qed.

(** X17. [zeroBytes] never writes out of range, and leaves a buffer of the
    same length in which every byte is zero. *)
Theorem zeroBytes_zeroes (bytes : list byte) :
  zeroBytes bytes = Returns (repeat x00 (length bytes)).
Proof.
  exact (zero_loop bytes []).
Qed.

End Crypto.

(** ** The stand-ins meet what is assumed of the collaborators *)

Lemma Fixture_Write_app (s : Fixture.State) (a b : list byte) :
  Fixture.Write (Fixture.Write s a) b = Fixture.Write s (a ++ b).
Proof. unfold Fixture.Write. symmetry. apply app_assoc. Qed.

Lemma Fixture_Write_nil (s : Fixture.State) : Fixture.Write s [] = s.
Proof. apply app_nil_r. Qed.

Lemma Fixture_Sum_length (s : Fixture.State) :
  length (Fixture.Sum s []) = 32%nat.
Proof. unfold Fixture.Sum. cbn [app]. apply be_bytes_length. Qed.

Lemma Fixture_ScalarBaseMult_point (k : list byte) :
  0 < BigInt.SetBytes k < secp256k1N ->
  fst (Fixture.ScalarBaseMult k) <> None.
Proof.
  intros Hk. unfold Fixture.ScalarBaseMult.
  rewrite Z.mod_small by lia.
  destruct (Z.eqb_spec (BigInt.SetBytes k) 0); [lia | discriminate].
Qed.

Lemma Fixture_ScalarBaseMult_leading_zero (k : list byte) :
  (length k < 32)%nat ->
  Fixture.ScalarBaseMult (x00 :: k) = Fixture.ScalarBaseMult k.
Proof. intros _. reflexivity. Qed.

Lemma Fixture_Marshal_nonempty (x y : Z) : Fixture.Marshal S256 x y <> [].
Proof. discriminate. Qed.

(** ** The theorems at concrete inputs *)

(** The vectors of the signature validator. *)
Example ValidateSignatureValues_vectors :
  ValidateSignatureValues x00 1 1 true = true /\
  ValidateSignatureValues x02 1 1 true = false /\
  ValidateSignatureValues x00 0 1 true = false /\
  ValidateSignatureValues x00 1 (secp256k1N / 2 + 1) true = false /\
  ValidateSignatureValues x00 1 (secp256k1N / 2 + 1) false = true.
Proof. vm_compute. repeat split. Qed.

(** C2 at the scalars N, N + 1 and 0 on 32 bytes (strict mode), and at the
    one-byte input 0 (lenient mode). *)
Lemma toECDSA_scalar_range_witness :
  length (Fixture.bytes32 secp256k1N) = 32%nat /\
  toECDSA Fixture.ScalarBaseMult (Fixture.bytes32 secp256k1N) true
    = Err KeyOutOfRange /\
  toECDSA Fixture.ScalarBaseMult (Fixture.bytes32 (secp256k1N + 1)) true
    = Err KeyOutOfRange /\
  toECDSA Fixture.ScalarBaseMult (Fixture.bytes32 0) true
    = Err KeyNonPositive /\
  toECDSA Fixture.ScalarBaseMult [x00] false = Err KeyNonPositive.
Proof.
  split; [reflexivity|]. split; [|split; [|split]].
  - apply (proj2 (toECDSA_scalar_range Fixture.ScalarBaseMult
                    (Fixture.bytes32 secp256k1N) true));
      [intros _; reflexivity | vm_compute; discriminate].
  - apply (proj2 (toECDSA_scalar_range Fixture.ScalarBaseMult
                    (Fixture.bytes32 (secp256k1N + 1)) true));
      [intros _; reflexivity | vm_compute; discriminate].
  - apply (proj2 (toECDSA_scalar_range Fixture.ScalarBaseMult
                    (Fixture.bytes32 0) true));
      [intros _; reflexivity | vm_compute; discriminate].
  - apply (proj2 (toECDSA_scalar_range Fixture.ScalarBaseMult [x00] false));
      [discriminate | vm_compute; discriminate].
Defined.


(** C5 at the scalar 1. *)
Lemma toECDSA_FromECDSA_roundtrip_witness :
  0 < 1 < secp256k1N /\
  exists k,
    toECDSA Fixture.ScalarBaseMult (BigInt.be_bytes 32 1) true = Ok k /\
    D k = 1 /\
    FromECDSA (Some k) = BigInt.be_bytes 32 1 /\
    length (FromECDSA (Some k)) = 32%nat /\
    toECDSA Fixture.ScalarBaseMult (FromECDSA (Some k)) true = Ok k.
Proof.
  assert (H : 0 < 1 < secp256k1N) by (split; reflexivity).
  split; [exact H|].
  exact (toECDSA_FromECDSA_roundtrip
           Fixture.ScalarBaseMult Fixture_ScalarBaseMult_point 1 H).
Defined.

(** C6 at the 31-byte encoding of the scalar 1. *)
Lemma ToECDSAUnsafe_31_bytes_witness :
  length (BigInt.be_bytes 31 1) = 31%nat /\
  0 < BigInt.SetBytes (BigInt.be_bytes 31 1) < secp256k1N /\
  exists k,
    ToECDSAUnsafe Fixture.ScalarBaseMult (BigInt.be_bytes 31 1) = Some k /\
    ToECDSA Fixture.ScalarBaseMult (x00 :: BigInt.be_bytes 31 1) = Ok k /\
    D k = BigInt.SetBytes (BigInt.be_bytes 31 1) /\
    X (Public k) = fst (Fixture.ScalarBaseMult (BigInt.be_bytes 31 1)) /\
    Y (Public k) = snd (Fixture.ScalarBaseMult (BigInt.be_bytes 31 1)).
Proof.
  assert (Hl : length (BigInt.be_bytes 31 1) = 31%nat) by reflexivity.
  assert (Hr : 0 < BigInt.SetBytes (BigInt.be_bytes 31 1) < secp256k1N)
    by (split; reflexivity).
  split; [exact Hl|]. split; [exact Hr|].
  exact (ToECDSAUnsafe_31_bytes
           Fixture.ScalarBaseMult Fixture_ScalarBaseMult_point
           Fixture_ScalarBaseMult_leading_zero _ Hl Hr).
Defined.

(** C7 at two buffers. *)
Lemma Keccak256_concat_witness :
  let hash := Keccak256 Fixture.State Fixture.New Fixture.Write Fixture.Sum in
  hash [[x01]; [x02; x03]]
    = Fixture.Sum (Fixture.Write Fixture.New [x01; x02; x03]) [] /\
  hash [[x01]; [x02; x03]] = hash [[x01; x02; x03]] /\
  length (hash [[x01]; [x02; x03]]) = 32%nat.
Proof.
  intros hash.
  destruct (Keccak256_concat Fixture.State Fixture.New Fixture.Write
              Fixture.Sum Fixture_Write_app Fixture_Write_nil
              Fixture_Sum_length [[x01]; [x02; x03]])
    as (Hd & Hc & _ & Hl & _).
  split; [exact Hd|]. split; [exact Hc | exact Hl].
Defined.



(** C4 at the key with coordinates 1 and 2. *)
Lemma PubkeyToAddress_spec_witness :
  let p := {| Curve := S256; X := Some 1; Y := Some 2 |} in
  let digest :=
    Keccak256 Fixture.State Fixture.New Fixture.Write Fixture.Sum
      [skipn 1 (Fixture.Marshal S256 1 2)] in
  PubkeyToAddress Fixture.State Fixture.New Fixture.Write Fixture.Sum
    Fixture.Marshal p
  = Returns (firstn 20 (skipn 12 digest)) /\
  length (firstn 20 (skipn 12 digest)) = 20%nat.
Proof.
  intros p digest.
  destruct (PubkeyToAddress_spec Fixture.State Fixture.New Fixture.Write
              Fixture.Sum Fixture.Marshal Fixture_Sum_length
              Fixture_Marshal_nonempty p 1 2 eq_refl eq_refl)
    as (_ & Haddr & Hlen & _).
  split; [exact Haddr | exact Hlen].
Defined.

(** C10 at a key without its first coordinate. *)
Lemma PubkeyToAddress_panics_iff_witness :
  let p := {| Curve := S256; X := None; Y := Some 2 |} in
  FromECDSAPub Fixture.Marshal (Some p) = [] /\
  PubkeyToAddress Fixture.State Fixture.New Fixture.Write Fixture.Sum
    Fixture.Marshal p = Panics.
Proof.
  intros p.
  destruct (PubkeyToAddress_panics_iff Fixture.State Fixture.New Fixture.Write
              Fixture.Sum Fixture.Marshal Fixture_Sum_length
              Fixture_Marshal_nonempty p)
    as (Hnil & Hiff & _).
  split.
  - apply Hnil. left. reflexivity.
  - apply Hiff. left. reflexivity.
Defined.

(** ** The stand-ins for the hex codec and the file system meet what is
    assumed of them *)

Lemma FixtureIO_hex_byte (x : byte) :
  FixtureIO.fromHexChar (FixtureIO.hexdigit (BigInt.byte_val x / 16))
    = Some (BigInt.byte_val x / 16) /\
  FixtureIO.fromHexChar (FixtureIO.hexdigit (BigInt.byte_val x mod 16))
    = Some (BigInt.byte_val x mod 16) /\
  BigInt.byte_of_Z (BigInt.byte_val x / 16 * 16 + BigInt.byte_val x mod 16) = x.
Proof. destruct x; vm_compute; repeat split. Qed.

Lemma FixtureIO_decode_pairs_encode (b : list byte) :
  FixtureIO.decode_pairs (flat_map FixtureIO.encode_byte b) = Some b.
Proof.
  induction b as [|x b IH]; [reflexivity|].
  cbn [flat_map]. unfold FixtureIO.encode_byte at 1.
  cbn [app FixtureIO.decode_pairs].
  destruct (FixtureIO_hex_byte x) as (-> & -> & ->). rewrite IH. reflexivity.
Qed.

Lemma FixtureIO_DecodeString_EncodeToString (b : list byte) :
  FixtureIO.DecodeString (FixtureIO.EncodeToString b) = Some b.
Proof.
  unfold FixtureIO.DecodeString, FixtureIO.EncodeToString.
  rewrite String.list_byte_of_string_of_list_byte.
  apply FixtureIO_decode_pairs_encode.
Qed.

Lemma FixtureIO_EncodeToString_length (b : list byte) :
  length (String.list_byte_of_string (FixtureIO.EncodeToString b))
  = (2 * length b)%nat.
Proof.
  unfold FixtureIO.EncodeToString.
  rewrite String.list_byte_of_string_of_list_byte.
  induction b as [|x b IH]; [reflexivity|].
  cbn [flat_map FixtureIO.encode_byte app length]. rewrite IH. lia.
Qed.

Lemma FixtureIO_Open_WriteFile (fs : FixtureIO.FS) (file : String.string)
  (data : list byte) (perm : Z) (fs' : FixtureIO.FS) :
  FixtureIO.WriteFile fs file data perm = (fs', None) ->
  FixtureIO.Open fs' file = Ok data.
Proof.
  unfold FixtureIO.WriteFile, FixtureIO.Open. intros [= <-].
  rewrite String.eqb_refl. reflexivity.
Qed.

Lemma Fixture_key1 :
  ToECDSA Fixture.ScalarBaseMult (Fixture.bytes32 1) = Ok FixtureIO.key1.
Proof. vm_compute. reflexivity. Qed.

(** ** The further theorems at concrete inputs *)

(** X1 at [(v, r, s) = (0, 1, 1)]. *)
Lemma ValidateSignatureValues_homestead_stricter_witness :
  ValidateSignatureValues x00 1 1 true = true /\
  ValidateSignatureValues x00 1 1 false = true.
Proof.
  assert (H : ValidateSignatureValues x00 1 1 true = true) by reflexivity.
  split; [exact H|].
  exact (ValidateSignatureValues_homestead_stricter x00 1 1 H).
Defined.

(** X2 at [s = 1], whose twin is [N - 1]. *)
Lemma ValidateSignatureValues_no_twin_witness :
  ValidateSignatureValues x00 1 1 true = true /\
  ValidateSignatureValues x00 1 (secp256k1N - 1) true = false.
Proof.
  assert (H : ValidateSignatureValues x00 1 1 true = true) by reflexivity.
  split; [exact H|].
  exact (ValidateSignatureValues_no_twin x00 1 1 H x00 1).
Defined.


(** X5 at the one-byte input 1. *)
Lemma FromECDSA_ToECDSAUnsafe_witness :
  length (FromECDSA (Some FixtureIO.key1)) = 32%nat /\
  BigInt.SetBytes (FromECDSA (Some FixtureIO.key1)) = BigInt.SetBytes [x01] /\
  D FixtureIO.key1 = BigInt.SetBytes [x01].
Proof.
  assert (H : ToECDSAUnsafe Fixture.ScalarBaseMult [x01] = Some FixtureIO.key1)
    by (vm_compute; reflexivity).
  exact (FromECDSA_ToECDSAUnsafe Fixture.ScalarBaseMult [x01]
           FixtureIO.key1 H).
Defined.


(** X19 at the scalar 1 on 32 bytes. *)
Lemma ToECDSA_ToECDSAUnsafe_agree_witness :
  ToECDSAUnsafe Fixture.ScalarBaseMult (Fixture.bytes32 1)
  = Some FixtureIO.key1.
Proof.
  exact (proj1 (ToECDSA_ToECDSAUnsafe_agree Fixture.ScalarBaseMult
                  (Fixture.bytes32 1) FixtureIO.key1) Fixture_key1).
Defined.


(** X7 at one buffer. *)
Lemma Keccak256Hash_Keccak256_witness :
  Keccak256Hash Fixture.State Fixture.New Fixture.Write Fixture.Sum [[x01]]
  = Keccak256 Fixture.State Fixture.New Fixture.Write Fixture.Sum [[x01]].
Proof.
  exact (proj1 (Keccak256Hash_Keccak256 Fixture.State Fixture.New
                  Fixture.Write Fixture.Sum Fixture_Sum_length [[x01]])).
Defined.

(** X8 with an encoder that fails. *)
Lemma CreateAddress_returns_witness :
  exists addr,
    CreateAddress Fixture.State Fixture.New Fixture.Write Fixture.Sum
      unit Fixture.EncodeFails [] 7 = Returns addr /\
    length addr = AddressLength.
Proof.
  exact (CreateAddress_returns Fixture.State Fixture.New Fixture.Write
           Fixture.Sum unit Fixture.EncodeFails Fixture_Sum_length [] 7).
Defined.

(** X9 at two keys with the coordinates 1 and 2 and different curves. *)
Lemma PubkeyToAddress_ignores_Curve_witness :
  let p := {| Curve := S256; X := Some 1; Y := Some 2 |} in
  let q := {| Curve := {| BitSize := 521 |}; X := Some 1; Y := Some 2 |} in
  FromECDSAPub Fixture.Marshal (Some p) = FromECDSAPub Fixture.Marshal (Some q) /\
  PubkeyToAddress Fixture.State Fixture.New Fixture.Write Fixture.Sum
    Fixture.Marshal p
  = PubkeyToAddress Fixture.State Fixture.New Fixture.Write Fixture.Sum
      Fixture.Marshal q.
Proof.
  intros p q.
  exact (PubkeyToAddress_ignores_Curve Fixture.State Fixture.New
           Fixture.Write Fixture.Sum Fixture.Marshal p q eq_refl eq_refl).
Defined.

(** X10 at the key with the coordinates 1 and 2. *)
Lemma UnmarshalPubkey_FromECDSAPub_witness :
  let p := {| Curve := {| BitSize := 521 |}; X := Some 1; Y := Some 2 |} in
  UnmarshalPubkey Fixture.Unmarshal (FromECDSAPub Fixture.Marshal (Some p))
  = Ok {| Curve := S256; X := Some 1; Y := Some 2 |}.
Proof.
  intros p.
  apply (proj1 (UnmarshalPubkey_FromECDSAPub Fixture.Marshal
                  Fixture.Unmarshal p) 1 2 eq_refl eq_refl).
  vm_compute. reflexivity.
Defined.

(** X12 at the key of the scalar 1. *)
Lemma HexToECDSA_EncodeToString_witness :
  HexToECDSA Fixture.ScalarBaseMult FixtureIO.DecodeString
    (FixtureIO.EncodeToString (FromECDSA (Some FixtureIO.key1)))
  = Ok FixtureIO.key1.
Proof.
  exact (HexToECDSA_EncodeToString Fixture.ScalarBaseMult
           FixtureIO.DecodeString FixtureIO.EncodeToString
           FixtureIO_DecodeString_EncodeToString
           (Fixture.bytes32 1) FixtureIO.key1 Fixture_key1).
Defined.

(** X13 at a file of three bytes. *)
Lemma LoadECDSA_short_file_witness :
  let fs : FixtureIO.FS := fun _ => Some [x30; x31; x32] in
  LoadECDSA Fixture.ScalarBaseMult FixtureIO.DecodeString unit FixtureIO.FS
    FixtureIO.Open fs FixtureIO.keyfile
  = Err ErrUnexpectedEOF.
Proof.
  intros fs.
  apply (LoadECDSA_short_file Fixture.ScalarBaseMult FixtureIO.DecodeString
           unit FixtureIO.FS FixtureIO.Open fs FixtureIO.keyfile
           [x30; x31; x32] eq_refl).
  cbn [length]. lia.
Defined.

(** X14 at the hex form of the scalar 1, with and without a final newline. *)
Lemma LoadECDSA_first_64_witness :
  let c := String.list_byte_of_string FixtureIO.hex1 in
  let fs1 : FixtureIO.FS := fun _ => Some c in
  let fs2 : FixtureIO.FS := fun _ => Some (c ++ [x0a]) in
  LoadECDSA Fixture.ScalarBaseMult FixtureIO.DecodeString unit FixtureIO.FS
    FixtureIO.Open fs1 FixtureIO.keyfile
  = LoadECDSA Fixture.ScalarBaseMult FixtureIO.DecodeString unit FixtureIO.FS
      FixtureIO.Open fs2 FixtureIO.keyfile.
Proof.
  intros c fs1 fs2.
  apply (LoadECDSA_first_64 Fixture.ScalarBaseMult FixtureIO.DecodeString
           unit FixtureIO.FS FixtureIO.Open fs1 fs2 FixtureIO.keyfile
           FixtureIO.keyfile c (c ++ [x0a]) eq_refl eq_refl).
  - vm_compute. lia.
  - vm_compute. lia.
  - vm_compute. reflexivity.
Defined.

(** X15 at the key of the scalar 1, saved to an empty file system. *)
Lemma LoadECDSA_SaveECDSA_witness :
  let saved :=
    SaveECDSA FixtureIO.EncodeToString unit FixtureIO.FS FixtureIO.WriteFile
      FixtureIO.empty FixtureIO.keyfile (Some FixtureIO.key1) in
  snd saved = None /\
  LoadECDSA Fixture.ScalarBaseMult FixtureIO.DecodeString unit FixtureIO.FS
    FixtureIO.Open (fst saved) FixtureIO.keyfile
  = Ok FixtureIO.key1.
Proof.
  intros saved. split; [reflexivity|].
  exact (LoadECDSA_SaveECDSA Fixture.ScalarBaseMult FixtureIO.DecodeString
           FixtureIO.EncodeToString unit FixtureIO.FS FixtureIO.Open
           FixtureIO.WriteFile FixtureIO_DecodeString_EncodeToString
           FixtureIO_EncodeToString_length FixtureIO_Open_WriteFile
           FixtureIO.empty (fst saved) FixtureIO.keyfile
           (Fixture.bytes32 1) FixtureIO.key1 Fixture_key1 eq_refl).
Defined.

(** X16 at an empty file system. *)
Lemma LoadECDSA_SaveECDSA_nil_witness :
  let saved :=
    SaveECDSA FixtureIO.EncodeToString unit FixtureIO.FS FixtureIO.WriteFile
      FixtureIO.empty FixtureIO.keyfile None in
  snd saved = None /\
  FixtureIO.Open (fst saved) FixtureIO.keyfile = Ok [] /\
  LoadECDSA Fixture.ScalarBaseMult FixtureIO.DecodeString unit FixtureIO.FS
    FixtureIO.Open (fst saved) FixtureIO.keyfile
  = Err EOF.
Proof.
  intros saved. split; [reflexivity|].
  exact (LoadECDSA_SaveECDSA_nil Fixture.ScalarBaseMult
           FixtureIO.DecodeString FixtureIO.EncodeToString unit FixtureIO.FS
           FixtureIO.Open FixtureIO.WriteFile FixtureIO_EncodeToString_length
           FixtureIO_Open_WriteFile FixtureIO.empty (fst saved)
           FixtureIO.keyfile eq_refl).
Defined.

(** X18 at a file that holds the hex form of the scalar 1. *)
Lemma LoadECDSA_Ok_inv_witness :
  let fs : FixtureIO.FS :=
    fun _ => Some (String.list_byte_of_string FixtureIO.hex1) in
  exists content key,
    FixtureIO.Open fs FixtureIO.keyfile = Ok content /\
    (64 <= length content)%nat /\
    FixtureIO.DecodeString (String.string_of_list_byte (firstn 64 content))
      = Some key /\
    length key = 32%nat /\
    ToECDSA Fixture.ScalarBaseMult key = Ok FixtureIO.key1 /\
    D FixtureIO.key1 = BigInt.SetBytes key /\
    0 < D FixtureIO.key1 < secp256k1N.
Proof.
  intros fs.
  assert (H : LoadECDSA Fixture.ScalarBaseMult FixtureIO.DecodeString unit
                FixtureIO.FS FixtureIO.Open fs FixtureIO.keyfile
              = Ok FixtureIO.key1) by (vm_compute; reflexivity).
  exact (LoadECDSA_Ok_inv Fixture.ScalarBaseMult FixtureIO.DecodeString unit
           FixtureIO.FS FixtureIO.Open fs FixtureIO.keyfile FixtureIO.key1 H).
Defined.
